(** * glow/Base/Type.h: tensor type descriptors

    A shallow embedding of [include/glow/Base/Type.h] and the properties of
    [ShapeNHWC], [flattenCdr] and [Type] that the rest of the system relies
    on.

    Conventions of the embedding.
    - Unsigned machine integers ([size_t], [unsigned char], [unsigned]) are
      integers in [Z]; arithmetic that can leave the range of its type is
      reduced modulo the width of the type, written out.
    - A call either returns, or stops the process at a failed [assert] /
      [glow_unreachable()], or runs into behaviour the language leaves
      undefined (a C array subscripted outside its bounds).  The three are
      the constructors of [outcome].  Assertions are compiled in (the build
      without NDEBUG).
    - C arrays and [llvm::ArrayRef] are lists, subscripted with stdpp's
      [!!] and updated with [<[i:=x]>]; the bounds behaviour of the source
      is written around them. *)

From Stdlib Require Import ZArith Lia.
From stdpp Require Import base numbers list strings.

Local Open Scope Z_scope.

(** ** Outcomes of a call *)

Inductive outcome (A : Type) : Type :=
| Ret (a : A)   (* the call returns [a] *)
| Abort         (* a failed [assert] or [glow_unreachable()]: the process stops *)
| Undefined.    (* undefined behaviour, here: an out-of-bounds array access *)

Arguments Ret {A} a.
Arguments Abort {A}.
Arguments Undefined {A}.

#[global] Instance outcome_ret : MRet outcome := @Ret.

#[global] Instance outcome_bind : MBind outcome := λ A B f m,
  match m with
  | Ret a => f a
  | Abort => Abort
  | Undefined => Undefined
  end.

(** [assert(c)] of <cassert>. *)
Definition assert (c : bool) : outcome unit :=
  if c then Ret tt else Abort.

(** Modelled from the spec: [glow_unreachable()] is a macro of
    glow/Support/Compiler.h, which this development does not include.  The
    specification (sections 4.1 and 7) makes reaching it a fatal programming
    error: the process aborts. *)
Definition glow_unreachable {A : Type} : outcome A := Abort.

(** ** The target platform *)

(** [sizeof(size_t)] is the one quantity the header leaves to the target.
    Bytes have 8 bits ([int8_t] exists). *)
Class Platform : Type := {
  sizeof_size_t : Z;
  sizeof_size_t_pos : 0 < sizeof_size_t
}.

Definition LP64 : Platform := {| sizeof_size_t := 8; sizeof_size_t_pos := eq_refl |}.
Definition ILP32 : Platform := {| sizeof_size_t := 4; sizeof_size_t_pos := eq_refl |}.

(** IEEE-754 binary32 / binary64 and the exact-width integer types. *)
Definition sizeof_float : Z := 4.
Definition sizeof_double : Z := 8.
Definition sizeof_int8_t : Z := 1.
Definition sizeof_int32_t : Z := 4.

Section Machine.
Context `{Platform}.

Definition size_t_bits : Z := 8 * sizeof_size_t.
Definition size_t_modulus : Z := 2 ^ size_t_bits.

(** The values of [size_t]. *)
Definition is_size_t (z : Z) : Prop := 0 ≤ z < size_t_modulus.

(** [a * b] on [size_t]: unsigned arithmetic wraps. *)
Definition mul_size_t (a b : Z) : Z := (a * b) mod size_t_modulus.
End Machine.

(** Conversion to [unsigned char]. *)
Definition to_uchar (z : Z) : Z := z mod 256.

(** ** Arrays *)

(** [a[i]] on a C array of [length a] elements. *)
Definition array_at {A : Type} (a : list A) (i : nat) : outcome A :=
  match a !! i with
  | Some x => Ret x
  | None => Undefined
  end.

(** [a[i]] with a signed index, as in [names[(int)Ty]]. *)
Definition array_at_int {A : Type} (a : list A) (i : Z) : outcome A :=
  if i <? 0 then Undefined else array_at a (Z.to_nat i).

(** [a[i] = x] on a C array. *)
Definition array_set {A : Type} (a : list A) (i : nat) (x : A) : outcome (list A) :=
  if decide (i < length a)%nat then Ret (<[i:=x]> a) else Undefined.

(** [llvm::ArrayRef<size_t>]: a view of [size()] elements.  Its
    [operator[]] asserts that the index is in range. *)
Abbreviation ArrayRef := (list Z) (only parsing).

Definition ArrayRef_size (a : ArrayRef) : Z := Z.of_nat (length a).

Definition ArrayRef_at (a : ArrayRef) (i : nat) : outcome Z :=
  match a !! i with
  | Some x => Ret x
  | None => Abort
  end.

Module glow.

(** [constexpr unsigned max_tensor_dimensions = 6;] *)
Definition max_tensor_dimensions : Z := 6.

(** ** ShapeNHWC *)

Module ShapeNHWC.
Record t : Type := Build {
  n : Z;  (* Number of samples *)
  h : Z;  (* Height *)
  w : Z;  (* Width *)
  c : Z   (* # of Channels *)
}.

(** [explicit ShapeNHWC(llvm::ArrayRef<size_t> shape)] *)
Definition of_ArrayRef (shape : ArrayRef) : outcome t :=
  assert (ArrayRef_size shape =? 4) ;;
  n ← ArrayRef_at shape 0;
  h ← ArrayRef_at shape 1;
  w ← ArrayRef_at shape 2;
  c ← ArrayRef_at shape 3;
  mret (Build n h w c).

(** [explicit ShapeNHWC(size_t samples, size_t height, size_t width,
    size_t channels)] *)
Definition of_sizes (samples height width channels : Z) : t :=
  Build samples height width channels.

(** [bool equals(const ShapeNHWC &other) const] *)
Definition equals (this other : t) : bool :=
  (n this =? n other) && (h this =? h other) &&
  (w this =? w other) && (c this =? c other).
End ShapeNHWC.

(** [operator==(const ShapeNHWC &LHS, const ShapeNHWC &RHS)] *)
Definition ShapeNHWC_eq (LHS RHS : ShapeNHWC.t) : bool := ShapeNHWC.equals LHS RHS.

(** ** flattenCdr *)

Section FlattenCdr.
Context `{Platform}.

(** [for (size_t i = 2; i < dims.size(); i++) rest *= dims[i];] with
    [todo] iterations left, that is [todo = dims.size() - i]. *)
Fixpoint flattenCdr_loop (todo i : nat) (dims : ArrayRef) (rest : Z) : outcome Z :=
  match todo with
  | O => mret rest
  | S todo' =>
      d ← ArrayRef_at dims i;
      flattenCdr_loop todo' (S i) dims (mul_size_t rest d)
  end.

Definition flattenCdr (dims : ArrayRef) : outcome (Z * Z) :=
  assert (1 <? ArrayRef_size dims) ;;
  first ← ArrayRef_at dims 0;
  rest ← ArrayRef_at dims 1;
  rest ← flattenCdr_loop (length dims - 2) 2 dims rest;
  mret (first, rest).
End FlattenCdr.

(** ** Element kinds *)

(** [enum class ElemKind : unsigned char].  The underlying type is fixed,
    so the values of the type are those of [unsigned char], of which the
    five enumerators name 0 to 4. *)
Definition ElemKind : Type := Z.

Abbreviation FloatTy := 0 (only parsing).
Abbreviation DoubleTy := 1 (only parsing).
Abbreviation Int8Ty := 2 (only parsing).
Abbreviation Int32Ty := 3 (only parsing).
Abbreviation IndexTy := 4 (only parsing).

(** The values an object of type [ElemKind] can hold. *)
Definition is_ElemKind (Ty : ElemKind) : Prop := 0 ≤ Ty ≤ 255.

(** The closed set of enumerators. *)
Definition enumerators : list ElemKind := [FloatTy; DoubleTy; Int8Ty; Int32Ty; IndexTy].

(** ** Type *)

(** [struct Type final] *)
Record Type_ : Type := Build_Type {
  (* Contains the dimentions (sizes) of the tensor. Ex: [sx, sy, sz, ...]. *)
  sizes_ : list Z;
  (* Contains the number of dimensions used by the tensor. *)
  numSizes_ : Z;
  (* Specifies the element type of the tensor. *)
  elementType_ : ElemKind
}.

(** The default member initializers:
    [sizes_[max_tensor_dimensions] = {0,}], [numSizes_{0}],
    [elementType_{ElemKind::IndexTy}]. *)
Definition sizes_init : list Z := replicate (Z.to_nat max_tensor_dimensions) 0.

(** [Type() = default;] *)
Definition Type_default : Type_ :=
  {| sizes_ := sizes_init; numSizes_ := 0; elementType_ := IndexTy |}.

(** [for (size_t i = 0, e = dims.size(); i < e; i++) sizes_[i] = dims[i];]
    with [todo = e - i] iterations left. *)
Fixpoint Type_Type_loop (todo i : nat) (dims : ArrayRef) (sizes : list Z)
  : outcome (list Z) :=
  match todo with
  | O => mret sizes
  | S todo' =>
      d ← ArrayRef_at dims i;
      sizes' ← array_set sizes i d;
      Type_Type_loop todo' (S i) dims sizes'
  end.

(** [Type(ElemKind elemTy, llvm::ArrayRef<size_t> dims)
      : elementType_(elemTy)] *)
Definition Type_Type (elemTy : ElemKind) (dims : ArrayRef) : outcome Type_ :=
  let this := {| sizes_ := sizes_init; numSizes_ := 0; elementType_ := elemTy |} in
  assert (ArrayRef_size dims <? max_tensor_dimensions) ;;
  sizes ← Type_Type_loop (length dims) 0 dims (sizes_ this);
  mret {| sizes_ := sizes;
          numSizes_ := to_uchar (ArrayRef_size dims);
          elementType_ := elementType_ this |}.

(** [for (size_t i = 0; i < numSizes_; i++)
      if (sizes_[i] != other.sizes_[i]) return false;]
    falling through to [return true]. *)
Fixpoint Type_isEqual_loop (todo i : nat) (sizes other_sizes : list Z) : outcome bool :=
  match todo with
  | O => mret true
  | S todo' =>
      x ← array_at sizes i;
      y ← array_at other_sizes i;
      if negb (x =? y) then mret false
      else Type_isEqual_loop todo' (S i) sizes other_sizes
  end.

(** [bool isEqual(const Type &other) const] *)
Definition Type_isEqual (this other : Type_) : outcome bool :=
  (* Element type must be the same. *)
  if negb (elementType_ this =? elementType_ other) then mret false
  (* Must have the same number of sizes. *)
  else if negb (numSizes_ this =? numSizes_ other) then mret false
  (* Sizes must be the same. *)
  else Type_isEqual_loop (Z.to_nat (numSizes_ this)) 0 (sizes_ this) (sizes_ other).

(** [operator==(const Type &LHS, const Type &RHS)] *)
Definition Type_eq (LHS RHS : Type_) : outcome bool := Type_isEqual LHS RHS.

(** [ElemKind getElementType() const] *)
Definition Type_getElementType (this : Type_) : ElemKind := elementType_ this.

(** [llvm::ArrayRef<size_t> dims() const { return {sizes_, numSizes_}; }]:
    the view of the first [numSizes_] slots. *)
Definition Type_dims (this : Type_) : ArrayRef :=
  take (Z.to_nat (numSizes_ this)) (sizes_ this).

Section Size.
Context `{Platform}.

(** [for (unsigned i = 0; i < numSizes_; i++) s *= size_t(sizes_[i]);] *)
Fixpoint Type_size_loop (todo i : nat) (sizes : list Z) (s : Z) : outcome Z :=
  match todo with
  | O => mret s
  | S todo' =>
      d ← array_at sizes i;
      Type_size_loop todo' (S i) sizes (mul_size_t s d)
  end.

(** [size_t size() const] *)
Definition Type_size (this : Type_) : outcome Z :=
  if numSizes_ this =? 0 then mret 0
  else Type_size_loop (Z.to_nat (numSizes_ this)) 0 (sizes_ this) 1.

(** [static unsigned getElementSize(ElemKind Ty)] *)
Definition getElementSize (Ty : ElemKind) : outcome Z :=
  match Ty with
  | FloatTy => mret sizeof_float
  | DoubleTy => mret sizeof_double
  | Int8Ty => mret sizeof_int8_t
  | Int32Ty => mret sizeof_int32_t
  | IndexTy => mret sizeof_size_t
  | _ => glow_unreachable
  end.

(** [unsigned getElementSize() const] *)
Definition Type_getElementSize (this : Type_) : outcome Z :=
  getElementSize (elementType_ this).
End Size.

(** [const char *names[] = {"float", "double", "i8", "i32", "index"};] *)
Definition names : list string := ["float"; "double"; "i8"; "i32"; "index"]%string.

(** [static llvm::StringRef getElementName(ElemKind Ty)
      { ... return names[(int)Ty]; }] *)
Definition getElementName (Ty : ElemKind) : outcome string :=
  array_at_int names Ty.

(** [llvm::StringRef getElementName() const] *)
Definition Type_getElementName (this : Type_) : outcome string :=
  getElementName (elementType_ this).

(** ** isType *)

(** The template parameter [ElemTy] of [isType] ranges over the types of
    the program.  [ctype] stands for them, up to identity of types, with
    the five that the header names; [std::is_same<A, B>::value] is the
    test of that identity. *)
Class NativeTypes : Type := {
  ctype : Type;
  ctype_eq_dec :: EqDecision ctype;
  ty_float : ctype;
  ty_double : ctype;
  ty_int8_t : ctype;
  ty_int32_t : ctype;
  ty_size_t : ctype
}.

Section IsType.
Context `{NativeTypes}.

Definition is_same (A B : ctype) : bool := bool_decide (A = B).

(** [template <class ElemTy> static bool isType(ElemKind Ty)] *)
Definition isType (ElemTy : ctype) (Ty : ElemKind) : outcome bool :=
  match Ty with
  | FloatTy => mret (is_same ElemTy ty_float)
  | DoubleTy => mret (is_same ElemTy ty_double)
  | Int8Ty => mret (is_same ElemTy ty_int8_t)
  | Int32Ty => mret (is_same ElemTy ty_int32_t)
  | IndexTy => mret (is_same ElemTy ty_size_t)
  | _ => glow_unreachable
  end.

(** [template <class ElemTy> bool isType() const] *)
Definition Type_isType (ElemTy : ctype) (this : Type_) : outcome bool :=
  isType ElemTy (elementType_ this).
End IsType.

End glow.

Import glow.

(** * Vocabulary of the specification *)

(** The mathematical product of a dimension sequence. *)
Definition product (l : list Z) : Z := foldr Z.mul 1 l.

(** The storage of a [Type] object: [max_tensor_dimensions] slots, of which
    [numSizes_] are populated. *)
Definition storage_ok (T : Type_) : Prop :=
  length (sizes_ T) = Z.to_nat max_tensor_dimensions ∧
  0 ≤ numSizes_ T ≤ max_tensor_dimensions.

(** [T] came out of one of the two constructors. *)
Definition constructed (T : Type_) : Prop :=
  T = Type_default ∨ ∃ (K : ElemKind) (D : list Z), Type_Type K D = Ret T.

(** Two objects agree on everything but the slots past [numSizes_]. *)
Definition same_populated (a b : Type_) : Prop :=
  elementType_ a = elementType_ b ∧
  numSizes_ a = numSizes_ b ∧
  Type_dims a = Type_dims b.

(** The object the (kind, dims) constructor leaves behind. *)
Definition Type_of (K : ElemKind) (D : list Z) : Type_ :=
  {| sizes_ := D ++ replicate (Z.to_nat max_tensor_dimensions - length D) 0;
     numSizes_ := Z.of_nat (length D);
     elementType_ := K |}.

#[global] Instance same_populated_dec (a b : Type_) : Decision (same_populated a b).
Proof. unfold same_populated, ElemKind. apply _. Defined.

(** The fundamental types behind the header's five names on an LP64
    target: [int8_t] is [signed char], [int32_t] is [int] and [size_t] is
    [unsigned long]. *)
Inductive fundamental : Type :=
| c_float | c_double | c_signed_char | c_short | c_int | c_long
| c_unsigned_char | c_unsigned_int | c_unsigned_long.

#[global] Instance fundamental_eq_dec : EqDecision fundamental.
Proof. solve_decision. Defined.

Definition LP64_types : NativeTypes :=
  {| ctype := fundamental;
     ty_float := c_float;
     ty_double := c_double;
     ty_int8_t := c_signed_char;
     ty_int32_t := c_int;
     ty_size_t := c_unsigned_long |}.

(** The five native types are five different types. *)
Definition native_types_distinct `{NativeTypes} : Prop :=
  NoDup [ty_float; ty_double; ty_int8_t; ty_int32_t; ty_size_t].

(** * Properties *)

(** ** Arrays and outcomes *)

Lemma assert_true (c : bool) : c = true → assert c = Ret tt.
Proof. by intros ->. Qed.

Lemma assert_false (c : bool) : c = false → assert c = Abort.
Proof. by intros ->. Qed.

Lemma array_at_lookup {A : Type} (a : list A) (i : nat) (x : A) :
  a !! i = Some x → array_at a i = Ret x.
Proof. unfold array_at. by intros ->. Qed.

Lemma array_at_lt {A : Type} (a : list A) (i : nat) :
  (i < length a)%nat → ∃ x, a !! i = Some x ∧ array_at a i = Ret x.
Proof.
  intros Hi. destruct (lookup_lt_is_Some_2 a i Hi) as [x Hx].
  exists x. split; [done | by apply array_at_lookup].
Qed.

Lemma array_at_ge {A : Type} (a : list A) (i : nat) :
  (length a ≤ i)%nat → array_at a i = Undefined.
Proof. intros Hi. unfold array_at. by rewrite lookup_ge_None_2. Qed.

Lemma array_set_lt {A : Type} (a : list A) (i : nat) (x : A) :
  (i < length a)%nat → array_set a i x = Ret (<[i:=x]> a).
Proof. intros Hi. unfold array_set. by rewrite decide_True. Qed.

Lemma ArrayRef_at_lookup (a : list Z) (i : nat) (x : Z) :
  a !! i = Some x → ArrayRef_at a i = Ret x.
Proof. unfold ArrayRef_at. by intros ->. Qed.

Section MachineFacts.
Context `{Platform}.

Lemma size_t_bits_pos : 8 ≤ size_t_bits.
Proof. unfold size_t_bits. pose proof sizeof_size_t_pos. lia. Qed.

Lemma size_t_modulus_big : 256 ≤ size_t_modulus.
Proof.
  unfold size_t_modulus. change 256 with (2 ^ 8).
  apply Z.pow_le_mono_r; [lia | apply size_t_bits_pos].
Qed.

Lemma size_t_modulus_pos : 0 < size_t_modulus.
Proof. pose proof size_t_modulus_big. lia. Qed.

Lemma is_size_t_mod (z : Z) : is_size_t z → z mod size_t_modulus = z.
Proof. intros Hz. by apply Z.mod_small. Qed.

(** A run of wrapping multiplications is the product, reduced once. *)
Lemma fold_mul_size_t (l : list Z) (s : Z) :
  foldl mul_size_t (s mod size_t_modulus) l = (s * product l) mod size_t_modulus.
Proof.
  revert s. induction l as [|d l IH]; intros s; simpl.
  - by rewrite Z.mul_1_r.
  - unfold mul_size_t at 2. rewrite Z.mul_mod_idemp_l by (pose proof size_t_modulus_pos; lia).
    rewrite IH. f_equal. unfold product. simpl. lia.
Qed.

Lemma fold_mul_size_t_cons (d : Z) (l : list Z) (s : Z) :
  foldl mul_size_t s (d :: l) = (s * product (d :: l)) mod size_t_modulus.
Proof.
  simpl. unfold mul_size_t at 2. rewrite fold_mul_size_t.
  f_equal. unfold product. simpl. lia.
Qed.
End MachineFacts.

(** ** The loops *)

(** The constructor's loop copies [dims[i .. i+todo)] over the same slots
    and leaves the others as they were. *)
Lemma Type_Type_loop_spec (todo i : nat) (dims sizes : list Z) :
  (i + todo ≤ length dims)%nat →
  (i + todo ≤ length sizes)%nat →
  Type_Type_loop todo i dims sizes =
    Ret (take i sizes ++ take todo (drop i dims) ++ drop (i + todo) sizes).
Proof.
  revert i sizes. induction todo as [|todo IH]; intros i sizes Hd Hs; simpl.
  - by rewrite Nat.add_0_r, take_drop.
  - destruct (lookup_lt_is_Some_2 dims i) as [d Hdi]; [lia|].
    rewrite (ArrayRef_at_lookup _ _ _ Hdi). simpl.
    rewrite array_set_lt by lia. simpl.
    rewrite IH by (rewrite ?length_insert; lia).
    f_equal.
    rewrite (take_S_r (<[i:=d]> sizes) i d) by (apply list_lookup_insert_eq; lia).
    rewrite take_insert_ge by lia.
    rewrite drop_insert_lt by lia.
    rewrite (drop_S dims d i Hdi). simpl.
    rewrite <- app_assoc. simpl.
    by replace (i + S todo)%nat with (S (i + todo)) by lia.
Qed.

(** The comparison loop returns, and says [true] exactly when the slots
    [i .. i+todo) agree. *)
Lemma Type_isEqual_loop_spec (todo i : nat) (a b : list Z) :
  (i + todo ≤ length a)%nat →
  (i + todo ≤ length b)%nat →
  ∃ r : bool, Type_isEqual_loop todo i a b = Ret r ∧
    (r = true ↔ ∀ j, (i ≤ j < i + todo)%nat → a !! j = b !! j).
Proof.
  revert i. induction todo as [|todo IH]; intros i Ha Hb; simpl.
  - exists true. split; [done|]. split; [|done]. intros _ j Hj. lia.
  - destruct (array_at_lt a i) as (x & Hx & ->); [lia|].
    destruct (array_at_lt b i) as (y & Hy & ->); [lia|]. simpl.
    destruct (Z.eqb_spec x y) as [->|Hne]; simpl.
    + destruct (IH (S i)) as (r & -> & Hr); [lia..|].
      exists r. split; [done|]. rewrite Hr. split.
      * intros Hall j Hj. destruct (decide (j = i)) as [->|]; [congruence|].
        apply Hall. lia.
      * intros Hall j Hj. apply Hall. lia.
    + exists false. split; [done|]. split; [done|].
      intros Hall. specialize (Hall i). rewrite Hx, Hy in Hall.
      exfalso. apply Hne. assert (Some x = Some y) as [= ->] by (apply Hall; lia). done.
Qed.

Section LoopFacts.
Context `{Platform}.

Lemma Type_size_loop_spec (todo i : nat) (sizes : list Z) (s : Z) :
  (i + todo ≤ length sizes)%nat →
  Type_size_loop todo i sizes s = Ret (foldl mul_size_t s (take todo (drop i sizes))).
Proof.
  revert i s. induction todo as [|todo IH]; intros i s Hs; simpl; [done|].
  destruct (array_at_lt sizes i) as (d & Hd & ->); [lia|]. simpl.
  rewrite IH by lia. by rewrite (drop_S sizes d i Hd).
Qed.

Lemma flattenCdr_loop_spec (todo i : nat) (dims : list Z) (rest : Z) :
  (i + todo ≤ length dims)%nat →
  flattenCdr_loop todo i dims rest = Ret (foldl mul_size_t rest (take todo (drop i dims))).
Proof.
  revert i rest. induction todo as [|todo IH]; intros i rest Hs; simpl; [done|].
  destruct (lookup_lt_is_Some_2 dims i) as [d Hd]; [lia|].
  rewrite (ArrayRef_at_lookup _ _ _ Hd). simpl.
  rewrite IH by lia. by rewrite (drop_S dims d i Hd).
Qed.
End LoopFacts.

(** ** Construction *)

Lemma Type_Type_Ret (K : ElemKind) (D : list Z) :
  (length D < 6)%nat → Type_Type K D = Ret (Type_of K D).
Proof.
  intros HD. unfold Type_Type, Type_of, ArrayRef_size, max_tensor_dimensions.
  rewrite assert_true by (apply Z.ltb_lt; lia). simpl.
  rewrite Type_Type_loop_spec by (unfold sizes_init; simpl; lia). simpl.
  rewrite take_ge by done. unfold sizes_init, max_tensor_dimensions.
  rewrite drop_replicate. do 2 f_equal.
  unfold to_uchar. apply Z.mod_small. lia.
Qed.

Lemma Type_Type_Abort (K : ElemKind) (D : list Z) :
  (6 ≤ length D)%nat → Type_Type K D = Abort.
Proof.
  intros HD. unfold Type_Type, ArrayRef_size, max_tensor_dimensions.
  by rewrite assert_false by (apply Z.ltb_ge; lia).
Qed.

Lemma Type_Type_inv (K : ElemKind) (D : list Z) (T : Type_) :
  Type_Type K D = Ret T → (length D < 6)%nat ∧ T = Type_of K D.
Proof.
  intros HT. destruct (decide (length D < 6)%nat) as [HD|HD].
  - rewrite Type_Type_Ret in HT by done. by injection HT as <-.
  - rewrite Type_Type_Abort in HT by lia. discriminate.
Qed.

Lemma Type_of_dims (K : ElemKind) (D : list Z) : Type_dims (Type_of K D) = D.
Proof. unfold Type_dims, Type_of. simpl. rewrite Nat2Z.id. apply take_app_length. Qed.

Lemma Type_of_storage_ok (K : ElemKind) (D : list Z) :
  (length D < 6)%nat → storage_ok (Type_of K D).
Proof.
  intros HD. unfold storage_ok, Type_of, max_tensor_dimensions. simpl.
  rewrite length_app, length_replicate. lia.
Qed.

Lemma Type_default_storage_ok : storage_ok Type_default.
Proof. unfold storage_ok, max_tensor_dimensions. simpl. lia. Qed.

Lemma constructed_storage_ok (T : Type_) : constructed T → storage_ok T.
Proof.
  intros [-> | (K & D & HT)]; [apply Type_default_storage_ok|].
  apply Type_Type_inv in HT as [HD ->]. by apply Type_of_storage_ok.
Qed.

(** ** Claims about construction *)

(** C3. For every element kind [K] and every dimension sequence [D] shorter
    than [max_tensor_dimensions] (6), the constructor returns a [Type] whose
    [dims()] is [D], with the same length, values and order, and whose
    [getElementType()] is [K]. *)
Theorem Type_Type_dims_roundtrip (K : ElemKind) (D : list Z) :
  ArrayRef_size D < max_tensor_dimensions →
  ∃ T : Type_, Type_Type K D = Ret T ∧ Type_dims T = D ∧ Type_getElementType T = K.
Proof.
  unfold ArrayRef_size, max_tensor_dimensions. intros HD.
  exists (Type_of K D). split; [apply Type_Type_Ret; lia|].
  split; [apply Type_of_dims | done].
Qed.

Lemma Type_Type_dims_roundtrip_witness :
  ∃ T : Type_, Type_Type Int32Ty [7; 3; 4; 2] = Ret T ∧
    Type_dims T = [7; 3; 4; 2] ∧ Type_getElementType T = Int32Ty.
Proof. apply (Type_Type_dims_roundtrip Int32Ty [7; 3; 4; 2]). reflexivity. Defined.

(** C4. Constructing a [Type] from a dimension sequence of length at least
    [max_tensor_dimensions] (6) stops at the failed assertion, whatever the
    kind and the values: nothing is truncated.  A sequence of length
    [max_tensor_dimensions - 1] (5) is accepted. *)
Theorem Type_Type_rank_limit (K : ElemKind) (D : list Z) :
  (max_tensor_dimensions ≤ ArrayRef_size D → Type_Type K D = Abort) ∧
  (ArrayRef_size D = max_tensor_dimensions - 1 → ∃ T : Type_, Type_Type K D = Ret T).
Proof.
  unfold ArrayRef_size, max_tensor_dimensions. split; intros HD.
  - apply Type_Type_Abort. lia.
  - exists (Type_of K D). apply Type_Type_Ret. lia.
Qed.

Lemma Type_Type_rank_limit_witness :
  Type_Type FloatTy [1; 2; 3; 4; 5; 6] = Abort ∧
  ∃ T : Type_, Type_Type FloatTy [1; 2; 3; 4; 5] = Ret T.
Proof.
  split.
  - apply (Type_Type_rank_limit FloatTy [1; 2; 3; 4; 5; 6]). vm_compute. discriminate.
  - apply (Type_Type_rank_limit FloatTy [1; 2; 3; 4; 5]). reflexivity.
Defined.

(** C10. In every [Type] that one of the two constructors produced, the
    storage has [max_tensor_dimensions] slots and every slot at an index at
    or beyond [numSizes_] holds 0.  The (kind, dims) constructor writes the
    first [dims.size()] slots only, so the object it returns is determined,
    storage included, by the kind and the dimension sequence: two
    constructions from the same arguments give identical objects. *)
Theorem constructed_unused_slots_zero (T : Type_) :
  constructed T →
  length (sizes_ T) = Z.to_nat max_tensor_dimensions ∧
  (∀ i : nat, numSizes_ T ≤ Z.of_nat i < max_tensor_dimensions → sizes_ T !! i = Some 0) ∧
  (∀ (K : ElemKind) (D : list Z), Type_Type K D = Ret T →
     sizes_ T = D ++ replicate (Z.to_nat max_tensor_dimensions - length D) 0 ∧
     ∀ T' : Type_, Type_Type K D = Ret T' → T' = T).
Proof.
  intros HT. split; [apply (constructed_storage_ok T HT)|]. split.
  - intros i. destruct HT as [-> | (K & D & HT)].
    + unfold Type_default, sizes_init, max_tensor_dimensions. cbn [numSizes_ sizes_].
      intros Hi. apply lookup_replicate_2. lia.
    + apply Type_Type_inv in HT as [HD ->].
      unfold Type_of, max_tensor_dimensions. cbn [numSizes_ sizes_]. intros Hi.
      rewrite lookup_app_r by lia. apply lookup_replicate_2. lia.
  - intros K D HKD. apply Type_Type_inv in HKD as [HD ->]. split; [done|].
    intros T' HT'. by apply Type_Type_inv in HT' as [_ ->].
Qed.

Lemma constructed_unused_slots_zero_witness :
  sizes_ (Type_of Int8Ty [2; 3]) = [2; 3; 0; 0; 0; 0] ∧
  sizes_ (Type_of Int8Ty [2; 3]) !! 5%nat = Some 0.
Proof.
  assert (Hc : constructed (Type_of Int8Ty [2; 3])).
  { right. exists Int8Ty, [2; 3]. reflexivity. }
  destruct (constructed_unused_slots_zero _ Hc) as (_ & Hzero & Hrep).
  split.
  - apply (Hrep Int8Ty [2; 3]). reflexivity.
  - apply Hzero. vm_compute. split; [discriminate | reflexivity].
Defined.

(** ** Equality *)

Lemma take_eq_lookup (n : nat) (l k : list Z) :
  (n ≤ length l)%nat → (n ≤ length k)%nat →
  take n l = take n k ↔ ∀ i : nat, (i < n)%nat → l !! i = k !! i.
Proof.
  intros Hl Hk. split.
  - intros Heq i Hi.
    rewrite <- (lookup_take_lt l n i Hi), <- (lookup_take_lt k n i Hi). by rewrite Heq.
  - intros Hall. apply list_eq. intros i.
    destruct (decide (i < n)%nat) as [Hi|Hi].
    + rewrite !lookup_take_lt by done. by apply Hall.
    + by rewrite !lookup_take_ge by lia.
Qed.

(** What [isEqual] computes on objects whose reads stay inside the storage. *)
Lemma Type_isEqual_decide (a b : Type_) :
  storage_ok a → storage_ok b →
  Type_isEqual a b = Ret (bool_decide (same_populated a b)).
Proof.
  intros [Hla Hna] [Hlb Hnb]. unfold Type_isEqual.
  unfold max_tensor_dimensions in *.
  destruct (Z.eqb_spec (elementType_ a) (elementType_ b)) as [HK|HK]; simpl.
  2: { rewrite bool_decide_eq_false_2; [done | by intros (? & _)]. }
  destruct (Z.eqb_spec (numSizes_ a) (numSizes_ b)) as [HN|HN]; simpl.
  2: { rewrite bool_decide_eq_false_2; [done | by intros (_ & ? & _)]. }
  destruct (Type_isEqual_loop_spec (Z.to_nat (numSizes_ a)) 0 (sizes_ a) (sizes_ b))
    as (r & -> & Hr); [lia..|].
  f_equal. destruct r; symmetry.
  - apply bool_decide_eq_true_2. do 2 (split; [done|]).
    unfold Type_dims. rewrite <- HN.
    apply take_eq_lookup; [lia..|]. intros i Hi. apply Hr; [done | lia].
  - apply bool_decide_eq_false_2. intros (_ & _ & Htake).
    unfold Type_dims in Htake. rewrite <- HN in Htake.
    enough (false = true) by discriminate. apply Hr. intros j Hj.
    apply (take_eq_lookup (Z.to_nat (numSizes_ a))); [lia.. | done | lia].
Qed.

(** Different counts are told apart before any slot is read. *)
Lemma Type_isEqual_numSizes_ne (a b : Type_) :
  numSizes_ a ≠ numSizes_ b → Type_isEqual a b = Ret false.
Proof.
  intros HN. unfold Type_isEqual.
  destruct (elementType_ a =? elementType_ b); simpl; [|done].
  by destruct (Z.eqb_spec (numSizes_ a) (numSizes_ b)).
Qed.

(** C1. On all [Type] objects [a] and [b], [isEqual] and [operator==]
    return, and return [true] if and only if the element kinds are equal,
    the dimension counts are equal and the populated dimension values are
    pairwise equal in order.  What the slots past [numSizes_] hold has no
    influence on the result, and for every kind the types with dims [2,3]
    and [2,3,1] compare unequal. *)
Theorem Type_isEqual_iff (a b : Type_) :
  storage_ok a → storage_ok b →
  (∃ r : bool, Type_isEqual a b = Ret r ∧ Type_eq a b = Ret r ∧
     (r = true ↔
        elementType_ a = elementType_ b ∧
        numSizes_ a = numSizes_ b ∧
        ∀ i : nat, Z.of_nat i < numSizes_ a → sizes_ a !! i = sizes_ b !! i)) ∧
  (∀ a' b' : Type_, storage_ok a' → storage_ok b' →
     same_populated a a' → same_populated b b' →
     Type_eq a' b' = Type_eq a b) ∧
  (∀ K : ElemKind, ∃ T23 T231 : Type_,
     Type_Type K [2; 3] = Ret T23 ∧ Type_Type K [2; 3; 1] = Ret T231 ∧
     Type_eq T23 T231 = Ret false ∧ Type_eq T231 T23 = Ret false).
Proof.
  intros Ha Hb. split; [|split].
  - exists (bool_decide (same_populated a b)). unfold Type_eq.
    rewrite Type_isEqual_decide by done. do 2 (split; [done|]).
    rewrite bool_decide_eq_true. unfold same_populated, Type_dims.
    destruct Ha as [Hla Hna], Hb as [Hlb Hnb]. unfold max_tensor_dimensions in *.
    split.
    + intros (HK & HN & Htake). do 2 (split; [done|]). intros i Hi.
      rewrite <- HN in Htake.
      apply (take_eq_lookup (Z.to_nat (numSizes_ a))); [lia.. | done | lia].
    + intros (HK & HN & Hall). do 2 (split; [done|]). rewrite <- HN.
      apply take_eq_lookup; [lia..|]. intros i Hi. apply Hall. lia.
  - intros a' b' Ha' Hb' (Ka & Na & Da) (Kb & Nb & Db). unfold Type_eq.
    rewrite !Type_isEqual_decide by done. f_equal.
    apply bool_decide_ext. unfold same_populated. split.
    + intros (HK & HN & HD). repeat split; congruence.
    + intros (HK & HN & HD). repeat split; congruence.
  - intros K. exists (Type_of K [2; 3]), (Type_of K [2; 3; 1]).
    do 2 (split; [by apply Type_Type_Ret; simpl; lia|]).
    split; apply Type_isEqual_numSizes_ne; simpl; lia.
Qed.

Lemma Type_isEqual_iff_witness :
  Type_eq {| sizes_ := [2; 3; 9; 9; 9; 9]; numSizes_ := 2; elementType_ := FloatTy |}
          {| sizes_ := [2; 3; 0; 0; 0; 0]; numSizes_ := 2; elementType_ := FloatTy |}
  = Type_eq {| sizes_ := [2; 3; 0; 0; 0; 0]; numSizes_ := 2; elementType_ := FloatTy |}
            {| sizes_ := [2; 3; 0; 0; 0; 0]; numSizes_ := 2; elementType_ := FloatTy |}.
Proof.
  assert (Hok : storage_ok (Type_of FloatTy [2; 3])).
  { split; [reflexivity | vm_compute; split; discriminate]. }
  apply (Type_isEqual_iff (Type_of FloatTy [2; 3]) (Type_of FloatTy [2; 3]) Hok Hok).
  - split; [reflexivity | vm_compute; split; discriminate].
  - exact Hok.
  - repeat split.
  - repeat split.
Defined.

(** C8. The default-constructed [Type] has [numSizes_ = 0], the index kind
    as element kind and [size() = 0]; it compares unequal, on either side
    of [==], to every [Type] with [numSizes_ > 0], whatever the element
    kinds. *)
Theorem Type_default_spec `{Platform} :
  numSizes_ Type_default = 0 ∧
  Type_getElementType Type_default = IndexTy ∧
  Type_dims Type_default = [] ∧
  Type_size Type_default = Ret 0 ∧
  ∀ T : Type_, 0 < numSizes_ T →
    Type_eq Type_default T = Ret false ∧ Type_eq T Type_default = Ret false.
Proof.
  do 4 (split; [reflexivity|]). intros T HT.
  split; apply Type_isEqual_numSizes_ne; simpl; lia.
Qed.

Lemma Type_default_spec_witness :
  Type_eq Type_default (Type_of IndexTy [1]) = Ret false ∧
  Type_eq (Type_of IndexTy [1]) Type_default = Ret false.
Proof. apply (Type_default_spec (H:=LP64)). reflexivity. Defined.

(** ** Element counts *)

Section SizeFacts.
Context `{Platform}.

(** What [size()] computes on objects whose reads stay inside the storage. *)
Lemma Type_size_storage_ok (T : Type_) :
  storage_ok T →
  Type_size T =
    Ret (if numSizes_ T =? 0 then 0 else product (Type_dims T) mod size_t_modulus).
Proof.
  intros [Hl Hn]. unfold Type_size, Type_dims, max_tensor_dimensions in *.
  destruct (Z.eqb_spec (numSizes_ T) 0) as [HN|HN]; [done|].
  rewrite Type_size_loop_spec by lia. f_equal. rewrite drop_0.
  destruct (take (Z.to_nat (numSizes_ T)) (sizes_ T)) as [|d l] eqn:Htake.
  - apply (f_equal length) in Htake. rewrite length_take in Htake. simpl in Htake. lia.
  - rewrite fold_mul_size_t_cons. f_equal. lia.
Qed.

Lemma flattenCdr_cons2 (first second : Z) (tl : list Z) :
  is_size_t second →
  flattenCdr (first :: second :: tl) =
    Ret (first, product (second :: tl) mod size_t_modulus).
Proof.
  intros Hs. unfold flattenCdr, ArrayRef_size.
  rewrite assert_true by (apply Z.ltb_lt; simpl length; lia). simpl.
  rewrite Nat.sub_0_r, flattenCdr_loop_spec by (simpl; lia). simpl.
  rewrite take_ge by done. do 2 f_equal.
  destruct tl as [|d tl].
  - unfold product. simpl. rewrite Z.mul_1_r. symmetry. by apply is_size_t_mod.
  - by rewrite drop_0, fold_mul_size_t_cons.
Qed.

Lemma flattenCdr_short (dims : list Z) :
  (length dims < 2)%nat → flattenCdr dims = Abort.
Proof.
  intros Hd. unfold flattenCdr, ArrayRef_size.
  by rewrite assert_false by (apply Z.ltb_ge; lia).
Qed.

Lemma is_size_t_byte (z : Z) : 0 ≤ z < 256 → is_size_t z.
Proof. pose proof size_t_modulus_big. unfold is_size_t. lia. Qed.
End SizeFacts.

(** C2, as the code has it.  For every [Type] that a constructor produced,
    [size()] is 0 when [numSizes_] is 0 (the explicit special case, not the
    empty product 1) and is otherwise the product of the populated
    dimensions reduced modulo [2 ^ (8 * sizeof(size_t))]: the exact product
    when that fits [size_t] (dims [7,3,4,2] give 168).  Hence [size()] is 0
    exactly when [numSizes_] is 0 or the product is a multiple of the
    modulus, which includes every shape with a zero dimension. *)
Theorem Type_size_spec `{Platform} (T : Type_) :
  constructed T →
  (numSizes_ T = 0 → Type_size T = Ret 0) ∧
  (numSizes_ T ≠ 0 → Type_size T = Ret (product (Type_dims T) mod size_t_modulus)) ∧
  (numSizes_ T ≠ 0 → 0 ≤ product (Type_dims T) < size_t_modulus →
     Type_size T = Ret (product (Type_dims T))) ∧
  (Type_size T = Ret 0 ↔
     numSizes_ T = 0 ∨ product (Type_dims T) mod size_t_modulus = 0) ∧
  (∀ K : ElemKind, (T' ← Type_Type K [7; 3; 4; 2]; Type_size T') = Ret 168).
Proof.
  intros HT. pose proof (Type_size_storage_ok T (constructed_storage_ok T HT)) as Hsize.
  split; [|split; [|split; [|split]]].
  - intros HN. rewrite Hsize. by rewrite HN.
  - intros HN. rewrite Hsize. by destruct (Z.eqb_spec (numSizes_ T) 0).
  - intros HN Hfit. rewrite Hsize. destruct (Z.eqb_spec (numSizes_ T) 0); [done|].
    by rewrite Z.mod_small.
  - rewrite Hsize. destruct (Z.eqb_spec (numSizes_ T) 0) as [HN|HN].
    + split; [by left | done].
    + split; [intros [= Hz]; by right | intros [? | Hz]; [done | by rewrite Hz]].
  - intros K. rewrite Type_Type_Ret by (simpl; lia). simpl.
    rewrite Type_size_storage_ok by (apply Type_of_storage_ok; simpl; lia).
    simpl. f_equal. apply Z.mod_small. pose proof size_t_modulus_big.
    unfold product, Type_dims. simpl. lia.
Qed.

Lemma Type_size_spec_witness :
  Type_size (H:=LP64) (Type_of DoubleTy [7; 3; 4; 2]) = Ret 168 ∧
  Type_size (H:=LP64) Type_default = Ret 0.
Proof.
  split.
  - apply (Type_size_spec (H:=LP64) (Type_of DoubleTy [7; 3; 4; 2])).
    + right. exists DoubleTy, [7; 3; 4; 2]. reflexivity.
    + discriminate.
    + vm_compute. split; [discriminate | reflexivity].
  - assert (Hc : constructed Type_default) by (left; reflexivity).
    destruct (Type_size_spec (H:=LP64) Type_default Hc) as [Hzero _].
    apply Hzero. reflexivity.
Defined.

(** C2 fails as it is written.  A one-dimensional type of extent 0 is
    validly constructed, has [numSizes_ = 1] and has [size() = 0], so
    [size() = 0] does not force [numSizes_ = 0]; and with a 64-bit [size_t]
    the dims [2^32, 2^32] have product [2^64] while [size()] is 0. *)
Lemma Type_size_counterexample :
  (Type_Type FloatTy [0] = Ret (Type_of FloatTy [0]) ∧
   ¬ (Type_size (H:=LP64) (Type_of FloatTy [0]) = Ret 0 ↔
      numSizes_ (Type_of FloatTy [0]) = 0)) ∧
  (Forall (is_size_t (H:=LP64)) [4294967296; 4294967296] ∧
   Type_Type FloatTy [4294967296; 4294967296]
     = Ret (Type_of FloatTy [4294967296; 4294967296]) ∧
   numSizes_ (Type_of FloatTy [4294967296; 4294967296]) ≠ 0 ∧
   Type_size (H:=LP64) (Type_of FloatTy [4294967296; 4294967296])
     ≠ Ret (product [4294967296; 4294967296])).
Proof.
  split.
  - split; [reflexivity|]. intros [Hzero _]. specialize (Hzero eq_refl). discriminate.
  - split; [repeat constructor; vm_compute; discriminate|].
    split; [reflexivity|]. split; [discriminate|]. vm_compute. discriminate.
Qed.

(** C5, as the code has it.  For every sequence [dims] of [size_t] values
    of length at least 2, [flattenCdr(dims)] returns the pair of [dims[0]]
    and the product of [dims[1..]] reduced modulo
    [2 ^ (8 * sizeof(size_t))], which is the exact product when that fits
    [size_t]: [flattenCdr([7,3,4,2]) = (7, 24)] and
    [flattenCdr([5,2]) = (5, 2)].  On a shorter sequence the call stops at
    the failed assertion. *)
Theorem flattenCdr_spec `{Platform} (dims : list Z) :
  Forall is_size_t dims →
  (1 < ArrayRef_size dims →
     ∃ (first : Z) (rest : list Z), dims = first :: rest ∧
       flattenCdr dims = Ret (first, product rest mod size_t_modulus) ∧
       (product rest < size_t_modulus → flattenCdr dims = Ret (first, product rest))) ∧
  (ArrayRef_size dims ≤ 1 → flattenCdr dims = Abort) ∧
  flattenCdr [7; 3; 4; 2] = Ret (7, 24) ∧
  flattenCdr [5; 2] = Ret (5, 2).
Proof.
  intros Hdims. unfold ArrayRef_size. split; [|split; [|split]].
  - intros Hlen. destruct dims as [|first [|second tl]]; simpl in Hlen; [lia..|].
    exists first, (second :: tl). split; [done|].
    assert (Hsecond : is_size_t second).
    { apply Forall_cons in Hdims as [_ Htl]. by apply Forall_cons in Htl as [? _]. }
    rewrite flattenCdr_cons2 by done. split; [done|]. intros Hfit.
    rewrite Z.mod_small; [done|]. split; [|done].
    apply Forall_cons in Hdims as [_ Htl]. clear -Htl.
    induction Htl as [|d l [Hd _] _ IH]; unfold product in *; simpl; lia.
  - intros Hlen. apply flattenCdr_short. lia.
  - rewrite flattenCdr_cons2 by (apply is_size_t_byte; lia).
    do 2 f_equal. apply Z.mod_small. pose proof size_t_modulus_big.
    unfold product. simpl. lia.
  - rewrite flattenCdr_cons2 by (apply is_size_t_byte; lia).
    do 2 f_equal. apply Z.mod_small. pose proof size_t_modulus_big.
    unfold product. simpl. lia.
Qed.

Lemma flattenCdr_spec_witness :
  (∃ (first : Z) (rest : list Z), [2; 4294967296; 4294967297] = first :: rest ∧
     flattenCdr (H:=LP64) [2; 4294967296; 4294967297]
       = Ret (first, product rest mod size_t_modulus (H:=LP64)) ∧
     (product rest < size_t_modulus (H:=LP64) →
        flattenCdr (H:=LP64) [2; 4294967296; 4294967297] = Ret (first, product rest))) ∧
  flattenCdr (H:=LP64) [9] = Abort.
Proof.
  split.
  - apply (flattenCdr_spec (H:=LP64) [2; 4294967296; 4294967297]).
    + repeat constructor; vm_compute; discriminate.
    + reflexivity.
  - apply (flattenCdr_spec (H:=LP64) [9]).
    + repeat constructor; vm_compute; discriminate.
    + vm_compute. discriminate.
Defined.

(** C5 fails as it is written.  With a 64-bit [size_t], the dims
    [1, 2^32, 2^32] are a sequence of [size_t] values of length 3 whose
    tail has product [2^64]; [flattenCdr] returns [(1, 0)]. *)
Lemma flattenCdr_counterexample :
  Forall (is_size_t (H:=LP64)) [1; 4294967296; 4294967296] ∧
  flattenCdr (H:=LP64) [1; 4294967296; 4294967296] = Ret (1, 0) ∧
  flattenCdr (H:=LP64) [1; 4294967296; 4294967296]
    ≠ Ret (1, product [4294967296; 4294967296]).
Proof.
  split; [repeat constructor; vm_compute; discriminate|].
  split; [reflexivity|]. vm_compute. discriminate.
Qed.

(** ** Element metadata *)

Lemma enumerators_range (Ty : ElemKind) : Ty ∈ enumerators ↔ 0 ≤ Ty ≤ 4.
Proof.
  unfold enumerators, ElemKind in *. rewrite !elem_of_cons, elem_of_nil. lia.
Qed.

(** Past the five cases of the [switch] lies [glow_unreachable()]. *)
Lemma getElementSize_out_of_set `{Platform} (Ty : ElemKind) :
  Ty ∉ enumerators → getElementSize Ty = Abort.
Proof.
  rewrite enumerators_range. intros HTy.
  destruct Ty as [|p|p]; [lia | | done].
  destruct p as [[p|p|]|[p|[p|p|]|]|]; try done; lia.
Qed.

(** Past the five entries of [names] lies whatever follows the array. *)
Lemma getElementName_out_of_set (Ty : ElemKind) :
  is_ElemKind Ty → Ty ∉ enumerators → getElementName Ty = Undefined.
Proof.
  rewrite enumerators_range. unfold is_ElemKind. intros HTy Hout.
  unfold getElementName, array_at_int.
  destruct (Z.ltb_spec Ty 0); [done|].
  apply array_at_ge. simpl. lia.
Qed.

(** C6. [getElementSize] and [getElementName] return the entries of the
    table: (4, "float"), (8, "double"), (1, "i8"), (4, "i32") and
    ([sizeof(size_t)], "index").  For every kind of the closed set both
    return, the size is positive and the name is not empty.  Neither reads
    anything but its argument: [Type] objects of the same element kind get
    the same answers. *)
Theorem element_metadata_table `{Platform} :
  (getElementSize FloatTy = Ret 4 ∧ getElementName FloatTy = Ret "float"%string) ∧
  (getElementSize DoubleTy = Ret 8 ∧ getElementName DoubleTy = Ret "double"%string) ∧
  (getElementSize Int8Ty = Ret 1 ∧ getElementName Int8Ty = Ret "i8"%string) ∧
  (getElementSize Int32Ty = Ret 4 ∧ getElementName Int32Ty = Ret "i32"%string) ∧
  (getElementSize IndexTy = Ret sizeof_size_t ∧
   getElementName IndexTy = Ret "index"%string) ∧
  (∀ K : ElemKind, K ∈ enumerators →
     ∃ (bytes : Z) (name : string),
       getElementSize K = Ret bytes ∧ 0 < bytes ∧
       getElementName K = Ret name ∧ name ≠ EmptyString) ∧
  (∀ T T' : Type_, elementType_ T = elementType_ T' →
     Type_getElementSize T = Type_getElementSize T' ∧
     Type_getElementName T = Type_getElementName T').
Proof.
  do 5 (split; [by split|]). split.
  - intros K HK. unfold enumerators in HK.
    rewrite !elem_of_cons, elem_of_nil in HK.
    destruct HK as [->|[->|[->|[->|[->|[]]]]]]; eexists _, _;
      (split; [reflexivity|]); (split; [|by split]); try done.
    apply sizeof_size_t_pos.
  - intros T T' HK. unfold Type_getElementSize, Type_getElementName. by rewrite HK.
Qed.

Lemma element_metadata_table_witness :
  ∃ (bytes : Z) (name : string),
    getElementSize (H:=ILP32) IndexTy = Ret bytes ∧ 0 < bytes ∧
    getElementName IndexTy = Ret name ∧ name ≠ EmptyString.
Proof.
  apply (element_metadata_table (H:=ILP32)).
  unfold enumerators. rewrite !elem_of_cons. tauto.
Defined.

(** C7 at the kind value 5, the first one outside the closed set:
    [getElementSize] stops at [glow_unreachable()], while [getElementName]
    subscripts the five-entry array [names] at index 5 and does not stop. *)
Theorem metadata_lookup_out_of_set :
  is_ElemKind 5 ∧ (5 ∉ enumerators) ∧
  getElementSize (H:=LP64) 5 = Abort ∧
  getElementName 5 = Undefined ∧
  getElementName 5 ≠ Abort.
Proof.
  assert (Hin : is_ElemKind 5) by (unfold is_ElemKind; lia).
  assert (Hout : 5 ∉ enumerators) by (rewrite enumerators_range; lia).
  split; [done|]. split; [done|].
  split; [by apply getElementSize_out_of_set|].
  by rewrite getElementName_out_of_set.
Qed.

(** ** ShapeNHWC *)

Lemma ShapeNHWC_equals_iff (s1 s2 : ShapeNHWC.t) :
  ShapeNHWC.equals s1 s2 = true ↔
  ShapeNHWC.n s1 = ShapeNHWC.n s2 ∧ ShapeNHWC.h s1 = ShapeNHWC.h s2 ∧
  ShapeNHWC.w s1 = ShapeNHWC.w s2 ∧ ShapeNHWC.c s1 = ShapeNHWC.c s2.
Proof.
  unfold ShapeNHWC.equals. rewrite !andb_true_iff, !Z.eqb_eq. tauto.
Qed.

(** C9. For all [n], [h], [w], [c], the [ShapeNHWC] built from the four
    values and the one built from the sequence [n, h, w, c] have the same
    fields and compare equal.  Building from a sequence whose length is not
    4 stops at the failed assertion.  Two [ShapeNHWC] values compare equal
    if and only if their four fields are pairwise equal. *)
Theorem ShapeNHWC_spec (n h w c : Z) (shape : list Z) (s1 s2 : ShapeNHWC.t) :
  (ShapeNHWC.of_ArrayRef [n; h; w; c] = Ret (ShapeNHWC.of_sizes n h w c) ∧
   ∃ s : ShapeNHWC.t, ShapeNHWC.of_ArrayRef [n; h; w; c] = Ret s ∧
     ShapeNHWC_eq (ShapeNHWC.of_sizes n h w c) s = true ∧
     ShapeNHWC_eq s (ShapeNHWC.of_sizes n h w c) = true) ∧
  (ArrayRef_size shape ≠ 4 → ShapeNHWC.of_ArrayRef shape = Abort) ∧
  (ShapeNHWC_eq s1 s2 = true ↔
     ShapeNHWC.n s1 = ShapeNHWC.n s2 ∧ ShapeNHWC.h s1 = ShapeNHWC.h s2 ∧
     ShapeNHWC.w s1 = ShapeNHWC.w s2 ∧ ShapeNHWC.c s1 = ShapeNHWC.c s2).
Proof.
  split; [|split].
  - split; [done|]. exists (ShapeNHWC.of_sizes n h w c). split; [done|].
    split; by apply ShapeNHWC_equals_iff.
  - intros Hlen. unfold ShapeNHWC.of_ArrayRef.
    by rewrite assert_false by (by apply Z.eqb_neq).
  - apply ShapeNHWC_equals_iff.
Qed.

Lemma ShapeNHWC_spec_witness :
  ShapeNHWC.of_ArrayRef [2; 3; 4] = Abort ∧
  ShapeNHWC.of_ArrayRef [2; 3; 4; 5] = Ret (ShapeNHWC.of_sizes 2 3 4 5).
Proof.
  pose proof (ShapeNHWC_spec 2 3 4 5 [2; 3; 4]
                (ShapeNHWC.of_sizes 2 3 4 5) (ShapeNHWC.of_sizes 2 3 4 5))
    as ((Hseq & _) & Hshort & _).
  split; [apply Hshort; discriminate | exact Hseq].
Defined.

(** * Further properties of the header *)

(** ** Equality as a relation *)

Lemma same_populated_refl (a : Type_) : same_populated a a.
Proof. by repeat split. Qed.

Lemma same_populated_sym (a b : Type_) : same_populated a b → same_populated b a.
Proof. by intros (? & ? & ?). Qed.

Lemma same_populated_trans (a b c : Type_) :
  same_populated a b → same_populated b c → same_populated a c.
Proof. intros (? & ? & ?) (? & ? & ?). repeat split; congruence. Qed.

Lemma Type_eq_true (a b : Type_) :
  storage_ok a → storage_ok b → Type_eq a b = Ret true ↔ same_populated a b.
Proof.
  intros Ha Hb. unfold Type_eq. rewrite Type_isEqual_decide by done. split.
  - intros [= Hdec]. by apply bool_decide_eq_true_1 in Hdec.
  - intros Hsame. f_equal. by apply bool_decide_eq_true_2.
Qed.

(** X1. On objects whose populated slots lie inside the storage,
    [operator==] is an equivalence: every object equals itself, the result
    does not depend on the order of the operands, and equality carries over
    a middle object. *)
Theorem Type_eq_equivalence (a b c : Type_) :
  storage_ok a → storage_ok b → storage_ok c →
  Type_eq a a = Ret true ∧
  Type_eq a b = Type_eq b a ∧
  (Type_eq a b = Ret true → Type_eq b c = Ret true → Type_eq a c = Ret true).
Proof.
  intros Ha Hb Hc. split; [|split].
  - apply Type_eq_true; [done..|]. apply same_populated_refl.
  - unfold Type_eq. rewrite !Type_isEqual_decide by done. f_equal.
    apply bool_decide_ext. split; apply same_populated_sym.
  - rewrite !Type_eq_true by done. apply same_populated_trans.
Qed.

Lemma Type_eq_equivalence_witness :
  Type_eq (Type_of Int8Ty [2; 3]) (Type_of Int8Ty [2; 3]) = Ret true.
Proof.
  assert (Hok : storage_ok (Type_of Int8Ty [2; 3])).
  { split; [reflexivity | vm_compute; split; discriminate]. }
  exact (proj1 (Type_eq_equivalence _ (Type_of Int8Ty [2; 3]) (Type_of Int8Ty [2; 3])
                 Hok Hok Hok)).
Defined.

(** X2. Two objects that the (kind, dims) constructor returned compare
    equal exactly when they were built from the same kind and the same
    dimension sequence, which is exactly when they are the same object
    value, storage included. *)
Theorem Type_eq_constructed (K K' : ElemKind) (D D' : list Z) (T T' : Type_) :
  Type_Type K D = Ret T → Type_Type K' D' = Ret T' →
  (Type_eq T T' = Ret true ↔ K = K' ∧ D = D') ∧
  (Type_eq T T' = Ret true ↔ T = T').
Proof.
  intros HT HT'.
  apply Type_Type_inv in HT as [HD ->]. apply Type_Type_inv in HT' as [HD' ->].
  assert (Hargs : Type_eq (Type_of K D) (Type_of K' D') = Ret true ↔ K = K' ∧ D = D').
  { rewrite Type_eq_true by (by apply Type_of_storage_ok).
    unfold same_populated. rewrite !Type_of_dims. simpl. split.
    - by intros (? & _ & ?).
    - by intros [-> ->]. }
  split; [done|]. rewrite Hargs. split.
  - by intros [-> ->].
  - intros Heq. split.
    + by apply (f_equal elementType_) in Heq.
    + apply (f_equal Type_dims) in Heq. by rewrite !Type_of_dims in Heq.
Qed.

Lemma Type_eq_constructed_witness :
  Type_eq (Type_of Int32Ty [4; 1]) (Type_of Int32Ty [4; 1]) = Ret true.
Proof.
  apply (Type_eq_constructed Int32Ty Int32Ty [4; 1] [4; 1]); reflexivity.
Defined.

(** ** What construction guarantees *)

(** X3. The constructor either returns or stops at its assertion, and it
    returns exactly for sequences shorter than [max_tensor_dimensions]: the
    assertion is strict, so a constructed object has at most 5 populated
    dimensions, [dims()] has [numSizes_] elements, and the last of the six
    slots is never written. *)
Theorem constructed_rank_invariant (K : ElemKind) (D : list Z) (T : Type_) :
  Type_Type K D ≠ Undefined ∧
  ((∃ T' : Type_, Type_Type K D = Ret T') ↔ ArrayRef_size D < max_tensor_dimensions) ∧
  (constructed T →
     0 ≤ numSizes_ T ≤ max_tensor_dimensions - 1 ∧
     ArrayRef_size (Type_dims T) = numSizes_ T ∧
     sizes_ T !! 5%nat = Some 0).
Proof.
  unfold ArrayRef_size, max_tensor_dimensions. split; [|split].
  - destruct (decide (length D < 6)%nat).
    + by rewrite Type_Type_Ret.
    + by rewrite Type_Type_Abort by lia.
  - split.
    + intros [T' HT']. apply Type_Type_inv in HT' as [? _]. lia.
    + intros HD. exists (Type_of K D). apply Type_Type_Ret. lia.
  - intros [-> | (K' & D' & HT)].
    + by repeat split.
    + apply Type_Type_inv in HT as [HD ->]. rewrite Type_of_dims.
      unfold Type_of, max_tensor_dimensions. cbn [numSizes_ sizes_].
      split; [lia|]. split; [done|].
      rewrite lookup_app_r by lia. apply lookup_replicate_2. lia.
Qed.

Lemma constructed_rank_invariant_witness :
  0 ≤ numSizes_ (Type_of FloatTy [1; 2; 3; 4; 5]) ≤ max_tensor_dimensions - 1 ∧
  ArrayRef_size (Type_dims (Type_of FloatTy [1; 2; 3; 4; 5]))
    = numSizes_ (Type_of FloatTy [1; 2; 3; 4; 5]) ∧
  sizes_ (Type_of FloatTy [1; 2; 3; 4; 5]) !! 5%nat = Some 0.
Proof.
  apply (constructed_rank_invariant FloatTy [1; 2; 3; 4; 5]).
  right. exists FloatTy, [1; 2; 3; 4; 5]. reflexivity.
Defined.

Lemma mul_size_t_range `{Platform} (a b : Z) : is_size_t (mul_size_t a b).
Proof.
  unfold is_size_t, mul_size_t. apply Z.mod_pos_bound, size_t_modulus_pos.
Qed.

(** X4. On objects that came out of a constructor, no query leaves the
    storage: [operator==] returns a boolean for every pair of them, and
    [size()] returns a value of [size_t]. *)
Theorem constructed_queries_return `{Platform} (T T' : Type_) :
  constructed T → constructed T' →
  (∃ b : bool, Type_eq T T' = Ret b) ∧
  (∃ s : Z, Type_size T = Ret s ∧ is_size_t s).
Proof.
  intros HT HT'. apply constructed_storage_ok in HT, HT'. split.
  - exists (bool_decide (same_populated T T')). by apply Type_isEqual_decide.
  - rewrite Type_size_storage_ok by done. eexists. split; [done|].
    destruct (numSizes_ T =? 0).
    + pose proof size_t_modulus_pos. unfold is_size_t. lia.
    + apply Z.mod_pos_bound, size_t_modulus_pos.
Qed.

Lemma constructed_queries_return_witness :
  (∃ b : bool, Type_eq Type_default (Type_of FloatTy [3]) = Ret b) ∧
  (∃ s : Z, Type_size (H:=LP64) Type_default = Ret s ∧ is_size_t (H:=LP64) s).
Proof.
  apply (constructed_queries_return (H:=LP64)).
  - left. reflexivity.
  - right. exists FloatTy, [3]. reflexivity.
Defined.

(** Running a loop past the end of the array. *)
Lemma Type_size_loop_past_end `{Platform} (todo i : nat) (sizes : list Z) (s : Z) :
  (i ≤ length sizes < i + todo)%nat → Type_size_loop todo i sizes s = Undefined.
Proof.
  revert i s. induction todo as [|todo IH]; intros i s Hi; [lia|]. simpl.
  destruct (decide (i < length sizes)%nat) as [Hlt|Hge].
  - destruct (array_at_lt sizes i Hlt) as (d & _ & ->). simpl. apply IH. lia.
  - by rewrite array_at_ge by lia.
Qed.

Lemma Type_isEqual_loop_past_end (todo i : nat) (sizes : list Z) :
  (i ≤ length sizes < i + todo)%nat → Type_isEqual_loop todo i sizes sizes = Undefined.
Proof.
  revert i. induction todo as [|todo IH]; intros i Hi; [lia|]. simpl.
  destruct (decide (i < length sizes)%nat) as [Hlt|Hge].
  - destruct (array_at_lt sizes i Hlt) as (d & _ & ->). simpl.
    rewrite Z.eqb_refl. simpl. apply IH. lia.
  - by rewrite array_at_ge by lia.
Qed.

(** X5. The queries rely on [numSizes_] staying within the storage.  On an
    object with the six slots of the struct whose [numSizes_] has been set
    above [max_tensor_dimensions] (the members are public), [size()] and
    the comparison of the object with itself run their loops past the end
    of [sizes_]: the behaviour is undefined. *)
Theorem numSizes_beyond_storage `{Platform} (T : Type_) :
  length (sizes_ T) = Z.to_nat max_tensor_dimensions →
  max_tensor_dimensions < numSizes_ T →
  Type_size T = Undefined ∧ Type_eq T T = Undefined.
Proof.
  unfold max_tensor_dimensions. intros Hlen Hnum. split.
  - unfold Type_size. destruct (Z.eqb_spec (numSizes_ T) 0); [lia|].
    apply Type_size_loop_past_end. lia.
  - unfold Type_eq, Type_isEqual. rewrite !Z.eqb_refl. simpl.
    apply Type_isEqual_loop_past_end. lia.
Qed.

Lemma numSizes_beyond_storage_witness :
  Type_size (H:=LP64) {| sizes_ := [1; 1; 1; 1; 1; 1]; numSizes_ := 7; elementType_ := FloatTy |}
    = Undefined ∧
  Type_eq {| sizes_ := [1; 1; 1; 1; 1; 1]; numSizes_ := 7; elementType_ := FloatTy |}
          {| sizes_ := [1; 1; 1; 1; 1; 1]; numSizes_ := 7; elementType_ := FloatTy |}
    = Undefined.
Proof. apply (numSizes_beyond_storage (H:=LP64)); reflexivity. Defined.

(** ** Element counts of related shapes *)

Lemma product_Permutation (l k : list Z) : l ≡ₚ k → product l = product k.
Proof.
  unfold product. induction 1 as [|x l k _ IH|x y l|l k m _ IH1 _ IH2]; simpl.
  - done.
  - by rewrite IH.
  - lia.
  - congruence.
Qed.

Lemma product_zero (l : list Z) : 0 ∈ l → product l = 0.
Proof.
  unfold product. induction l as [|d l IH]; [by intros ?%elem_of_nil|].
  intros [<- | Hin]%elem_of_cons; simpl; [done|]. rewrite IH by done. lia.
Qed.

Lemma Type_size_Type_of `{Platform} (K : ElemKind) (D : list Z) :
  (length D < 6)%nat →
  Type_size (Type_of K D) =
    Ret (if decide (D = []) then 0 else product D mod size_t_modulus).
Proof.
  intros HD. rewrite Type_size_storage_ok by (by apply Type_of_storage_ok).
  rewrite Type_of_dims. cbn [Type_of numSizes_]. f_equal.
  destruct D as [|d D]; [done|]. by rewrite decide_False.
Qed.

(** X6. [size()] does not depend on the order of the dimensions nor on the
    element kind: two constructed types whose dimension sequences are
    permutations of each other have the same number of elements. *)
Theorem Type_size_Permutation `{Platform}
    (K K' : ElemKind) (D D' : list Z) (T T' : Type_) :
  Type_Type K D = Ret T → Type_Type K' D' = Ret T' → D ≡ₚ D' →
  Type_size T = Type_size T'.
Proof.
  intros HT HT' Hperm.
  apply Type_Type_inv in HT as [HD ->]. apply Type_Type_inv in HT' as [HD' ->].
  rewrite !Type_size_Type_of by done. f_equal.
  rewrite (product_Permutation D D' Hperm).
  destruct (decide (D = [])) as [->|HDne].
  - apply Permutation_nil_l in Hperm. by rewrite <- Hperm.
  - rewrite decide_False; [done|]. intros ->.
    by apply Permutation_nil_r in Hperm.
Qed.

Lemma Type_size_Permutation_witness :
  Type_size (H:=LP64) (Type_of FloatTy [2; 3; 5]) =
  Type_size (H:=LP64) (Type_of Int8Ty [5; 2; 3]).
Proof.
  apply (Type_size_Permutation (H:=LP64) FloatTy Int8Ty [2; 3; 5] [5; 2; 3]);
    [reflexivity | reflexivity |].
  change [5; 2; 3] with ([5] ++ [2; 3]). change [2; 3; 5] with ([2; 3] ++ [5]).
  apply Permutation_app_comm.
Defined.

(** X7. A constructed type with a dimension of extent 0 has no elements:
    [size()] is 0, whatever the other dimensions are. *)
Theorem Type_size_zero_extent `{Platform} (K : ElemKind) (D : list Z) (T : Type_) :
  Type_Type K D = Ret T → 0 ∈ D → Type_size T = Ret 0.
Proof.
  intros HT Hzero. apply Type_Type_inv in HT as [HD ->].
  rewrite Type_size_Type_of by done. f_equal.
  destruct (decide (D = [])); [done|]. by rewrite product_zero.
Qed.

Lemma Type_size_zero_extent_witness :
  Type_size (H:=LP64) (Type_of FloatTy [4; 0; 7]) = Ret 0.
Proof.
  apply (Type_size_zero_extent (H:=LP64) FloatTy [4; 0; 7]); [reflexivity|].
  apply elem_of_cons. right. apply elem_of_cons. by left.
Defined.

(** ** flattenCdr and the element count *)

Lemma flattenCdr_inv `{Platform} (dims : list Z) (first rest : Z) :
  Forall is_size_t dims → flattenCdr dims = Ret (first, rest) →
  ∃ tl : list Z, dims = first :: tl ∧ tl ≠ [] ∧
    rest = product tl mod size_t_modulus.
Proof.
  intros Hdims Hflat. destruct dims as [|f [|second tl]].
  - by rewrite flattenCdr_short in Hflat by (simpl; lia).
  - by rewrite flattenCdr_short in Hflat by (simpl; lia).
  - rewrite flattenCdr_cons2 in Hflat.
    + injection Hflat as <- <-. by exists (second :: tl).
    + apply Forall_cons in Hdims as [_ Htl]. by apply Forall_cons in Htl as [? _].
Qed.

(** X8. Collapsing the shape of a type keeps its element count.  For a
    constructed type of rank at least 2 whose dimensions are [size_t]
    values, [flattenCdr(T.dims())] returns a pair [(first, rest)] whose
    wrapped product is [T.size()], and the rank-2 type built from the pair
    has the same [size()] as [T]. *)
Theorem flattenCdr_preserves_size `{Platform} (K : ElemKind) (D : list Z) (T : Type_) :
  Type_Type K D = Ret T → Forall is_size_t D → 1 < ArrayRef_size D →
  ∃ (first rest : Z) (T2 : Type_),
    flattenCdr (Type_dims T) = Ret (first, rest) ∧
    Type_size T = Ret (mul_size_t first rest) ∧
    Type_Type K [first; rest] = Ret T2 ∧
    Type_size T2 = Type_size T.
Proof.
  unfold ArrayRef_size. intros HT Hdims Hlen.
  apply Type_Type_inv in HT as [HD ->]. rewrite Type_of_dims.
  destruct D as [|first [|second tl]]; simpl in Hlen; [lia..|].
  assert (Hsecond : is_size_t second).
  { apply Forall_cons in Hdims as [_ Htl]. by apply Forall_cons in Htl as [? _]. }
  exists first, (product (second :: tl) mod size_t_modulus),
    (Type_of K [first; product (second :: tl) mod size_t_modulus]).
  pose proof size_t_modulus_pos as HM.
  assert (Hsize : Type_size (Type_of K (first :: second :: tl)) =
            Ret (mul_size_t first (product (second :: tl) mod size_t_modulus))).
  { rewrite Type_size_Type_of by done. rewrite decide_False by done.
    unfold mul_size_t. rewrite Z.mul_mod_idemp_r by lia. done. }
  split; [by apply flattenCdr_cons2|]. split; [done|].
  split; [apply Type_Type_Ret; simpl; lia|].
  rewrite Hsize, Type_size_Type_of by (simpl; lia). rewrite decide_False by done.
  unfold mul_size_t, product. simpl. by rewrite Z.mul_1_r.
Qed.

Lemma flattenCdr_preserves_size_witness :
  ∃ (first rest : Z) (T2 : Type_),
    flattenCdr (H:=LP64) (Type_dims (Type_of FloatTy [7; 3; 4; 2])) = Ret (first, rest) ∧
    Type_size (H:=LP64) (Type_of FloatTy [7; 3; 4; 2])
      = Ret (mul_size_t (H:=LP64) first rest) ∧
    Type_Type FloatTy [first; rest] = Ret T2 ∧
    Type_size (H:=LP64) T2 = Type_size (H:=LP64) (Type_of FloatTy [7; 3; 4; 2]).
Proof.
  apply (flattenCdr_preserves_size (H:=LP64) FloatTy [7; 3; 4; 2]).
  - reflexivity.
  - repeat constructor; vm_compute; discriminate.
  - reflexivity.
Defined.

(** X9. [flattenCdr] is idempotent on [size_t] sequences: the pair it
    returns is a sequence of two [size_t] values that [flattenCdr] maps to
    itself. *)
Theorem flattenCdr_idempotent `{Platform} (dims : list Z) (first rest : Z) :
  Forall is_size_t dims → flattenCdr dims = Ret (first, rest) →
  Forall is_size_t [first; rest] ∧ flattenCdr [first; rest] = Ret (first, rest).
Proof.
  intros Hdims Hflat.
  destruct (flattenCdr_inv dims first rest Hdims Hflat) as (tl & -> & Htl & ->).
  assert (Hrest : is_size_t (product tl mod size_t_modulus)).
  { apply Z.mod_pos_bound, size_t_modulus_pos. }
  split.
  - apply Forall_cons in Hdims as [Hfirst _].
    constructor; [done|]. constructor; [done|]. constructor.
  - rewrite flattenCdr_cons2 by done. do 2 f_equal.
    unfold product. simpl. rewrite Z.mul_1_r. by apply is_size_t_mod.
Qed.

Lemma flattenCdr_idempotent_witness :
  Forall (is_size_t (H:=LP64)) [7; 24] ∧ flattenCdr (H:=LP64) [7; 24] = Ret (7, 24).
Proof.
  apply (flattenCdr_idempotent (H:=LP64) [7; 3; 4; 2]).
  - repeat constructor; vm_compute; discriminate.
  - reflexivity.
Defined.

(** ** ShapeNHWC and the dimensions of a type *)

(** X10. The sequence constructor of [ShapeNHWC] and the four fields are
    inverse to each other: it returns [s] exactly on the sequence
    [s.n, s.h, s.w, s.c], and on every other sequence it returns another
    shape or stops at its assertion. *)
Theorem ShapeNHWC_of_ArrayRef_inverse (shape : list Z) (s : ShapeNHWC.t) :
  ShapeNHWC.of_ArrayRef shape = Ret s ↔
  shape = [ShapeNHWC.n s; ShapeNHWC.h s; ShapeNHWC.w s; ShapeNHWC.c s].
Proof.
  split.
  - destruct shape as [|n [|h [|w [|c [|x tl]]]]]; try discriminate.
    + by intros [= <-].
    + unfold ShapeNHWC.of_ArrayRef, ArrayRef_size.
      rewrite assert_false; [discriminate|]. apply Z.eqb_neq. simpl length. lia.
  - intros ->. by destruct s.
Qed.

(** X11. Reading a type as an NHWC shape succeeds exactly on rank 4.  For a
    constructed [T], [ShapeNHWC(T.dims())] returns when [numSizes_] is 4,
    and its fields are then the first four slots of [T] in order; for every
    other rank, the default type included, it stops at the assertion. *)
Theorem ShapeNHWC_of_dims (T : Type_) :
  constructed T →
  (numSizes_ T = 4 →
     ∃ s : ShapeNHWC.t, ShapeNHWC.of_ArrayRef (Type_dims T) = Ret s ∧
       sizes_ T !! 0%nat = Some (ShapeNHWC.n s) ∧
       sizes_ T !! 1%nat = Some (ShapeNHWC.h s) ∧
       sizes_ T !! 2%nat = Some (ShapeNHWC.w s) ∧
       sizes_ T !! 3%nat = Some (ShapeNHWC.c s)) ∧
  (numSizes_ T ≠ 4 → ShapeNHWC.of_ArrayRef (Type_dims T) = Abort).
Proof.
  intros [-> | (K & D & HT)].
  - split; [discriminate | done].
  - apply Type_Type_inv in HT as [HD ->]. rewrite Type_of_dims.
    cbn [Type_of numSizes_ sizes_]. split.
    + intros Hlen. destruct D as [|n [|h [|w [|c [|x tl]]]]]; simpl in Hlen; try lia.
      by exists (ShapeNHWC.Build n h w c).
    + intros Hlen. unfold ShapeNHWC.of_ArrayRef, ArrayRef_size.
      by rewrite assert_false by (by apply Z.eqb_neq).
Qed.

Lemma ShapeNHWC_of_dims_witness :
  (∃ s : ShapeNHWC.t,
     ShapeNHWC.of_ArrayRef (Type_dims (Type_of FloatTy [2; 3; 4; 5])) = Ret s ∧
     sizes_ (Type_of FloatTy [2; 3; 4; 5]) !! 0%nat = Some (ShapeNHWC.n s) ∧
     sizes_ (Type_of FloatTy [2; 3; 4; 5]) !! 1%nat = Some (ShapeNHWC.h s) ∧
     sizes_ (Type_of FloatTy [2; 3; 4; 5]) !! 2%nat = Some (ShapeNHWC.w s) ∧
     sizes_ (Type_of FloatTy [2; 3; 4; 5]) !! 3%nat = Some (ShapeNHWC.c s)) ∧
  ShapeNHWC.of_ArrayRef (Type_dims Type_default) = Abort.
Proof.
  split.
  - apply (ShapeNHWC_of_dims (Type_of FloatTy [2; 3; 4; 5])); [|reflexivity].
    right. exists FloatTy, [2; 3; 4; 5]. reflexivity.
  - apply (ShapeNHWC_of_dims Type_default); [left; reflexivity | discriminate].
Defined.

(** X12. For two constructed types of the same element kind that both read
    as NHWC shapes, [operator==] on the types and [operator==] on the
    shapes agree. *)
Theorem Type_eq_ShapeNHWC_eq (T1 T2 : Type_) (s1 s2 : ShapeNHWC.t) :
  constructed T1 → constructed T2 →
  elementType_ T1 = elementType_ T2 →
  ShapeNHWC.of_ArrayRef (Type_dims T1) = Ret s1 →
  ShapeNHWC.of_ArrayRef (Type_dims T2) = Ret s2 →
  (Type_eq T1 T2 = Ret true ↔ ShapeNHWC_eq s1 s2 = true).
Proof.
  intros H1 H2 HK Hs1 Hs2.
  destruct (ShapeNHWC_of_dims T1 H1) as [_ Hno1].
  destruct (ShapeNHWC_of_dims T2 H2) as [_ Hno2].
  assert (HN1 : numSizes_ T1 = 4).
  { destruct (decide (numSizes_ T1 = 4)) as [|Hne]; [done|].
    rewrite Hno1 in Hs1 by done. discriminate. }
  assert (HN2 : numSizes_ T2 = 4).
  { destruct (decide (numSizes_ T2 = 4)) as [|Hne]; [done|].
    rewrite Hno2 in Hs2 by done. discriminate. }
  apply ShapeNHWC_of_ArrayRef_inverse in Hs1, Hs2.
  rewrite Type_eq_true by (by apply constructed_storage_ok).
  unfold ShapeNHWC_eq. rewrite ShapeNHWC_equals_iff.
  unfold same_populated. rewrite Hs1, Hs2. split.
  - intros (_ & _ & [= -> -> -> ->]). done.
  - intros (-> & -> & -> & ->). repeat split; congruence.
Qed.

Lemma Type_eq_ShapeNHWC_eq_witness :
  Type_eq (Type_of Int8Ty [2; 3; 4; 5]) (Type_of Int8Ty [2; 3; 4; 6]) = Ret true ↔
  ShapeNHWC_eq (ShapeNHWC.of_sizes 2 3 4 5) (ShapeNHWC.of_sizes 2 3 4 6) = true.
Proof.
  apply (Type_eq_ShapeNHWC_eq (Type_of Int8Ty [2; 3; 4; 5]) (Type_of Int8Ty [2; 3; 4; 6])).
  - right. exists Int8Ty, [2; 3; 4; 5]. reflexivity.
  - right. exists Int8Ty, [2; 3; 4; 6]. reflexivity.
  - reflexivity.
  - reflexivity.
  - reflexivity.
Defined.

(** ** The lookups over element kinds *)

Lemma enumerators_cases (Ty : ElemKind) :
  Ty ∈ enumerators →
  Ty = FloatTy ∨ Ty = DoubleTy ∨ Ty = Int8Ty ∨ Ty = Int32Ty ∨ Ty = IndexTy.
Proof. rewrite enumerators_range. unfold ElemKind in *. lia. Qed.

Lemma isType_out_of_set `{NativeTypes} (ElemTy : ctype) (Ty : ElemKind) :
  Ty ∉ enumerators → isType ElemTy Ty = Abort.
Proof.
  rewrite enumerators_range. intros HTy.
  destruct Ty as [|p|p]; [lia | | done].
  destruct p as [[p|p|]|[p|[p|p|]|]|]; try done; lia.
Qed.

Lemma isType_in_set `{NativeTypes} (ElemTy : ctype) (Ty : ElemKind) :
  Ty ∈ enumerators → ∃ b : bool, isType ElemTy Ty = Ret b.
Proof.
  intros [->|[->|[->|[->| ->]]]]%enumerators_cases; by eexists.
Qed.

Lemma getElementSize_in_set `{Platform} (Ty : ElemKind) :
  Ty ∈ enumerators → ∃ bytes : Z, getElementSize Ty = Ret bytes.
Proof.
  intros [->|[->|[->|[->| ->]]]]%enumerators_cases; by eexists.
Qed.

Lemma getElementName_Ret (Ty : ElemKind) (name : string) :
  getElementName Ty = Ret name ↔ 0 ≤ Ty ∧ names !! Z.to_nat Ty = Some name.
Proof.
  unfold getElementName, array_at_int, array_at.
  destruct (Z.ltb_spec Ty 0) as [Hneg|Hpos].
  - split; [discriminate | lia].
  - destruct (names !! Z.to_nat Ty) as [x|].
    + split; [by intros [= ->] | by intros [_ [= ->]]].
    + split; [discriminate | by intros [_ ?]].
Qed.

(** X13. The three lookups over [ElemKind] have the five enumerators as
    their common domain.  [getElementSize] and [isType] return on the
    enumerators and stop at [glow_unreachable()] on every other value;
    [getElementName] returns on the enumerators and, having no check, has
    undefined behaviour on every other value. *)
Theorem lookups_domain `{Platform} `{NativeTypes} (ElemTy : ctype) (Ty : ElemKind) :
  ((∃ bytes : Z, getElementSize Ty = Ret bytes) ↔ Ty ∈ enumerators) ∧
  ((∃ b : bool, isType ElemTy Ty = Ret b) ↔ Ty ∈ enumerators) ∧
  ((∃ name : string, getElementName Ty = Ret name) ↔ Ty ∈ enumerators) ∧
  (Ty ∉ enumerators ↔ getElementSize Ty = Abort) ∧
  (Ty ∉ enumerators ↔ isType ElemTy Ty = Abort) ∧
  (Ty ∉ enumerators ↔ getElementName Ty = Undefined).
Proof.
  destruct (decide (Ty ∈ enumerators)) as [Hin|Hout].
  - destruct (getElementSize_in_set Ty Hin) as [bytes Hsize].
    destruct (isType_in_set ElemTy Ty Hin) as [b Hb].
    assert (Hname : ∃ name, getElementName Ty = Ret name).
    { apply enumerators_cases in Hin as [->|[->|[->|[->| ->]]]]; by eexists. }
    destruct Hname as [name Hname]. rewrite Hsize, Hb, Hname.
    repeat split; try done; eauto.
  - rewrite (getElementSize_out_of_set Ty Hout), (isType_out_of_set ElemTy Ty Hout).
    assert (Hname : getElementName Ty = Undefined).
    { unfold getElementName, array_at_int.
      destruct (Z.ltb_spec Ty 0); [done|]. apply array_at_ge.
      rewrite enumerators_range in Hout. simpl. lia. }
    rewrite Hname. repeat split; try done; by intros [? ?].
Qed.

(** X14. When the five native types are five different types, [isType]
    pairs kinds and native types one to one: each native type is accepted
    by its own enumerator and by no other kind value, and no type is
    accepted by two kinds. *)
Theorem isType_one_to_one `{NativeTypes} (ElemTy : ctype) (K1 K2 Ty : ElemKind) :
  native_types_distinct →
  (isType ElemTy K1 = Ret true → isType ElemTy K2 = Ret true → K1 = K2) ∧
  (isType ty_float Ty = Ret true ↔ Ty = FloatTy) ∧
  (isType ty_double Ty = Ret true ↔ Ty = DoubleTy) ∧
  (isType ty_int8_t Ty = Ret true ↔ Ty = Int8Ty) ∧
  (isType ty_int32_t Ty = Ret true ↔ Ty = Int32Ty) ∧
  (isType ty_size_t Ty = Ret true ↔ Ty = IndexTy).
Proof.
  unfold native_types_distinct. rewrite !NoDup_cons, !not_elem_of_cons.
  intros Hdistinct.
  assert (Hmatch : ∀ (A : ctype) (K : ElemKind), isType A K = Ret true →
            (K = FloatTy ∧ A = ty_float) ∨ (K = DoubleTy ∧ A = ty_double) ∨
            (K = Int8Ty ∧ A = ty_int8_t) ∨ (K = Int32Ty ∧ A = ty_int32_t) ∨
            (K = IndexTy ∧ A = ty_size_t)).
  { intros A K HA. destruct (decide (K ∈ enumerators)) as [Hin|Hout].
    - apply enumerators_cases in Hin as [->|[->|[->|[->| ->]]]];
        injection HA as HA; apply bool_decide_eq_true_1 in HA; tauto.
    - by rewrite isType_out_of_set in HA. }
  assert (Hself : ∀ A : ctype, is_same A A = true).
  { intros A. by apply bool_decide_eq_true_2. }
  destruct_and!. split.
  - intros HK1 HK2. apply Hmatch in HK1, HK2.
    destruct_or!; destruct_and!; subst; try done; congruence.
  - repeat split;
      try (intros HTy; apply Hmatch in HTy;
           destruct_or!; destruct_and!; subst; try done; congruence);
      intros ->; simpl; by rewrite Hself.
Qed.

Lemma isType_one_to_one_witness :
  isType (H:=LP64_types) c_int Int32Ty = Ret true ↔ Int32Ty = Int32Ty.
Proof.
  apply (isType_one_to_one (H:=LP64_types) c_int Int32Ty Int32Ty Int32Ty).
  unfold native_types_distinct. apply (bool_decide_unpack _). reflexivity.
Defined.

Lemma names_NoDup : NoDup names.
Proof. apply (bool_decide_unpack _). reflexivity. Qed.

(** X15. The names identify the kinds: when [getElementName] returns the
    same name for two kind values, the two are the same kind. *)
Theorem getElementName_injective (K1 K2 : ElemKind) (name : string) :
  getElementName K1 = Ret name → getElementName K2 = Ret name → K1 = K2.
Proof.
  rewrite !getElementName_Ret. intros [H1 Hn1] [H2 Hn2].
  pose proof (NoDup_lookup names _ _ name names_NoDup Hn1 Hn2). lia.
Qed.

Lemma getElementName_injective_witness : (3 : ElemKind) = Int32Ty.
Proof.
  apply (getElementName_injective 3 Int32Ty "i32"%string); reflexivity.
Defined.
